(** * synapse/python_dependencies.py: the dependency manifest

    A shallow embedding of the module [synapse.python_dependencies]: the two
    module-level literals [REQUIREMENTS] and [CONDITIONAL_REQUIREMENTS], the
    loop that folds the optional groups into [ALL_OPTIONAL_REQUIREMENTS], the
    loop that rejects specifiers holding a double-quote, the function
    [list_requirements] and the [__main__] block.

    Python values are modelled as follows.
    - [str] is [string]; a requirement specifier is never parsed.
    - [list] is [list].
    - [dict] is an association list in insertion order whose keys are
      pairwise distinct ([dict_wf]); iteration order matters for the
      validation loop, so a finite map without order would lose it.
    - [set] is stdpp's [gset string]; [list(s)] is [elements s].  Python
      leaves the iteration order of a set unspecified, and no statement
      below depends on the order [elements] picks.
    - A statement that may raise or write to standard output is a
      computation in the monad [Exec], which threads the text written so far
      and stops at the first exception.
    - Where it matters whether a call changes an object, objects live in a
      [Store], a heap of list and set objects with the module's global
      names bound to references, and a call is a computation in the monad
      [Py] built from the interpreter's primitive operations. *)

From Stdlib Require Import Ascii String ZArith.
From stdpp Require Import base option list strings gmap sets fin_sets.

Set Warnings "-clear-no-such-hyp".

(** ** Python strings *)

(** The character U+0022. *)
Definition dquote_char : ascii := Ascii.ascii_of_nat 34.

(** The one-character string made of that character, the left operand of
    the test of line 138. *)
Definition dquote : string := String dquote_char EmptyString.

(** The one-character string made of a line feed. *)
Definition newline : string := String (Ascii.ascii_of_nat 10) EmptyString.

(** [needle in hay] on two [str] values: [needle] occurs in [hay] as a
    contiguous substring. *)
Fixpoint str_in (needle hay : string) : bool :=
  if String.prefix needle hay then true
  else match hay with
       | EmptyString => false
       | String _ rest => str_in needle rest
       end.

(** ** Python dicts, as far as the module uses them *)

Definition dict (V : Type) : Type := list (string * V).

(** Keys of a dict are pairwise distinct. *)
Definition dict_wf {V} (d : dict V) : Prop := NoDup (d.*1).

(** [d.items()], in insertion order. *)
Definition dict_items {V} (d : dict V) : list (string * V) := d.

(** [d.values()], in insertion order. *)
Definition dict_values {V} (d : dict V) : list V := d.*2.

(** The exception a failed subscript raises. *)
Inductive PyKeyError : Type :=
| KeyError (key : string).

(** [d[k]]: the value stored under [k], or [KeyError(k)]. *)
Fixpoint dict_getitem {V} (d : dict V) (k : string) : PyKeyError + V :=
  match d with
  | [] => inl (KeyError k)
  | (k', v) :: rest => if String.eqb k k' then inr v else dict_getitem rest k
  end.

(** [itertools.chain] applied to the unpacked [iterables], materialised. *)
Definition itertools_chain {A} (iterables : list (list A)) : list A :=
  concat iterables.

(** ** Exceptions and output *)

(** The only exception the module body raises is a plain [Exception] with
    one string argument. *)
Inductive PyException : Type :=
| Exception (msg : string).

(** A computation gets the text already on standard output and gives back
    either an exception or a value, with the text on standard output then. *)
Definition Exec (A : Type) : Type := string → (PyException + A) * string.

Definition ret {A} (a : A) : Exec A := λ out, (inr a, out).

Definition raise {A} (e : PyException) : Exec A := λ out, (inl e, out).

Definition bind {A B} (c : Exec A) (k : A → Exec B) : Exec B :=
  λ out, match c out with
         | (inl e, out') => (inl e, out')
         | (inr a, out') => k a out'
         end.

Notation "c ;;; k" := (bind c (λ _, k))
  (at level 100, right associativity).

(** [sys.stdout.write(s)]. *)
Definition stdout_write (s : string) : Exec unit := λ out, (inr (), out +:+ s).

(** [sys.stdout.writelines(lines)]: writes every element, adding nothing. *)
Fixpoint stdout_writelines (lines : list string) : Exec unit :=
  match lines with
  | [] => ret ()
  | line :: rest => stdout_write line ;;; stdout_writelines rest
  end.

(** ** The module *)

(** The two literals of the module text. *)
Record Manifest : Type := {
  REQUIREMENTS_literal : list string;
  CONDITIONAL_REQUIREMENTS_literal : dict (list string);
}.

(** The module's global names once its body has run. *)
Record Globals : Type := {
  REQUIREMENTS : list string;
  CONDITIONAL_REQUIREMENTS : dict (list string);
  ALL_OPTIONAL_REQUIREMENTS : gset string;
}.

(** [name not in ["systemd"]]. *)
Definition not_excluded (name : string) : bool :=
  negb (existsb (String.eqb name) ["systemd"]).

(** One iteration of the loop over [CONDITIONAL_REQUIREMENTS.items()]. *)
Definition all_optional_step (acc : gset string) (item : string * list string)
  : gset string :=
  let '(name, optional_deps) := item in
  if not_excluded name then list_to_set optional_deps ∪ acc else acc.

(** The loop of lines 123-129, started from [set()]. *)
Definition all_optional_loop (items : list (string * list string)) : gset string :=
  foldl all_optional_step ∅ items.

(** The message of the exception of lines 139-141. *)
Definition double_quote_message (dep : string) : string :=
  "Dependency `" +:+ dep +:+ "` contains double-quote; use single-quotes instead".

(** The loop of lines 134-141 over the chained specifiers. *)
Fixpoint validation_loop (deps : list string) : Exec unit :=
  match deps with
  | [] => ret ()
  | dep :: rest =>
      if str_in dquote dep then raise (Exception (double_quote_message dep))
      else validation_loop rest
  end.

(** [list_requirements()], reading the module's globals. *)
Definition list_requirements (g : Globals) : list string :=
  elements (list_to_set (REQUIREMENTS g) ∪ ALL_OPTIONAL_REQUIREMENTS g).

(** The module body, top to bottom, run under the given [__name__]. *)
Definition exec_module (__name__ : string) (src : Manifest) : Exec Globals :=
  let requirements := REQUIREMENTS_literal src in
  let conditional := CONDITIONAL_REQUIREMENTS_literal src in
  let all_optional := all_optional_loop (dict_items conditional) in
  validation_loop (itertools_chain (requirements :: dict_values conditional)) ;;;
  let g := {| REQUIREMENTS := requirements;
              CONDITIONAL_REQUIREMENTS := conditional;
              ALL_OPTIONAL_REQUIREMENTS := all_optional |} in
  if String.eqb __name__ "__main__"
  then stdout_writelines ((λ req, req +:+ newline) <$> list_requirements g) ;;; ret g
  else ret g.

(** [import synapse.python_dependencies]: the body runs under the module's
    own name; the importer gets the module's globals, or the exception the
    body raised and no module. *)
Definition import_module (src : Manifest) : PyException + Globals :=
  (exec_module "synapse.python_dependencies" src "").1.

(** ** The interpreter running the module as a program *)

Record Process : Type := {
  exit_code : Z;
  stdout : string;
  stderr : string;
}.

(** The last line of the report of an uncaught exception. *)
Definition exception_line (e : PyException) : string :=
  match e with
  | Exception msg => "Exception: " +:+ msg +:+ newline
  end.

(** [python -m synapse.python_dependencies]: the body runs under the name
    [__main__].  When it finishes the exit status is 0.  An exception that
    reaches the top level is reported on standard error, as the stack trace
    [traceback] followed by the line naming the exception, and the exit
    status is 1. *)
Definition run_as_main (traceback : string) (src : Manifest) : Process :=
  match exec_module "__main__" src "" with
  | (inr _, out) => {| exit_code := 0; stdout := out; stderr := "" |}
  | (inl e, out) =>
      {| exit_code := 1; stdout := out;
         stderr := traceback +:+ exception_line e |}
  end.

(** ** Queries on the loaded module *)

(** A caller's use of the loaded module: it gets the globals and gives back
    its result with the globals after the call. *)
Definition Query (A : Type) : Type := Globals → A * Globals.

(** The subscript [CONDITIONAL_REQUIREMENTS[name]], which is how a caller
    reads one optional group. *)
Definition group_lookup (name : string) : Query (PyKeyError + list string) :=
  λ g, (dict_getitem (CONDITIONAL_REQUIREMENTS g) name, g).

(** Modelled from the spec: the error [UnknownGroupError] of section 7,
    raised when a caller asks for a group name that does not exist.  The
    source declares no error type of its own. *)
Inductive RegistryError : Type :=
| UnknownGroupError (name : string).

(** Modelled from the spec: the operation [listGroup] of section 4.1.  The
    source has no function for reading one group; it only binds the dict
    [CONDITIONAL_REQUIREMENTS], which stands for the optional groups here.
    In the specification's words: for a name that is a key of the optional
    groups the result is the specifier sequence declared for that group,
    verbatim, order kept and repetitions not collapsed; when the name is
    not a key the operation fails with [UnknownGroupError]; the registry is
    read-only. *)
Definition listGroup (name : string) : Query (RegistryError + list string) :=
  λ g, (match dict_getitem (CONDITIONAL_REQUIREMENTS g) name with
        | inr deps => inr deps
        | inl _ => inl (UnknownGroupError name)
        end, g).

(** ** The store a call of [list_requirements] runs in *)

(** The objects the function meets: lists and sets of strings. *)
Inductive PyObject : Type :=
| ListObject (items : list string)
| SetObject (elems : gset string).

(** A reference to an object is its position in the heap. *)
Definition Ref : Type := nat.

(** The interpreter's state as a call sees it: the objects allocated so far
    and the module's global namespace, which binds names to references.
    Objects are mutable in principle: an operation may replace the object
    at a reference; the ones below only ever add objects. *)
Record Store : Type := {
  heap : list PyObject;
  module_globals : gmap string Ref;
}.

Inductive PyError : Type :=
| NameError (name : string)
| TypeError
| SystemError.

(** A computation on the store: an error or a value, and the store then. *)
Definition Py (A : Type) : Type := Store → (PyError + A) * Store.

#[global] Instance py_ret : MRet Py := λ A a st, (inr a, st).

#[global] Instance py_bind : MBind Py := λ A B k c st,
  match c st with
  | (inl e, st') => (inl e, st')
  | (inr a, st') => k a st'
  end.

Definition py_raise {A} (e : PyError) : Py A := λ st, (inl e, st).

(** Reading a global name; an unbound name is a [NameError]. *)
Definition load_global (name : string) : Py Ref := λ st,
  match module_globals st !! name with
  | Some r => (inr r, st)
  | None => (inl (NameError name), st)
  end.

(** The object behind a reference.  Every reference the interpreter hands
    out is allocated, so the error case is not met by the code below. *)
Definition deref (r : Ref) : Py PyObject := λ st,
  match heap st !! r with
  | Some o => (inr o, st)
  | None => (inl SystemError, st)
  end.

(** The store with one more object, at the next free position. *)
Definition store_add (o : PyObject) (st : Store) : Store :=
  {| heap := heap st ++ [o]; module_globals := module_globals st |}.

(** A new object; its reference is returned. *)
Definition allocate (o : PyObject) : Py Ref := λ st,
  (inr (length (heap st)), store_add o st).

(** [set(iterable)]: a new set holding the elements of the iterable. *)
Definition builtin_set (r : Ref) : Py Ref :=
  o ← deref r;
  match o with
  | ListObject items => allocate (SetObject (list_to_set items))
  | SetObject elems => allocate (SetObject elems)
  end.

(** [a | b]: on two sets a new set, their union; a list on either side is
    a [TypeError]. *)
Definition binary_or (a b : Ref) : Py Ref :=
  oa ← deref a;
  ob ← deref b;
  match oa, ob with
  | SetObject s, SetObject t => allocate (SetObject (s ∪ t))
  | _, _ => py_raise TypeError
  end.

(** [list(iterable)]: a new list holding the elements of the iterable in
    iteration order. *)
Definition builtin_list (r : Ref) : Py Ref :=
  o ← deref r;
  match o with
  | ListObject items => allocate (ListObject items)
  | SetObject elems => allocate (ListObject (elements elems))
  end.

(** A call [list_requirements()], operation by operation: the body of
    line 145 reads [REQUIREMENTS], builds a set from it, reads
    [ALL_OPTIONAL_REQUIREMENTS], builds the union and builds a list from
    that; the reference of the list is returned.  The names [list] and
    [set] are the builtins, which the module does not rebind. *)
Definition call_list_requirements : Py Ref :=
  req ← load_global "REQUIREMENTS";
  required ← builtin_set req;
  optional ← load_global "ALL_OPTIONAL_REQUIREMENTS";
  union ← binary_or required optional;
  builtin_list union.

(** Two calls in succession. *)
Definition call_list_requirements_twice : Py (Ref * Ref) :=
  r1 ← call_list_requirements;
  r2 ← call_list_requirements;
  mret (r1, r2).

(** The two objects the function reads, as the module body leaves them for
    globals [g], and the names bound to them. *)
Definition store_of (g : Globals) : Store := {|
  heap := [ListObject (REQUIREMENTS g);
           SetObject (ALL_OPTIONAL_REQUIREMENTS g)];
  module_globals :=
    <["REQUIREMENTS" := 0]> (<["ALL_OPTIONAL_REQUIREMENTS" := 1]> ∅);
|}.

(** ** The manifest of the module text *)

Definition synapse_manifest : Manifest := {|
  REQUIREMENTS_literal := [
    "jsonschema>=3.0.0";
    "frozendict>=1,!=2.1.2";
    "unpaddedbase64>=1.1.0";
    "canonicaljson>=1.4.0";
    "signedjson>=1.1.0,<=1.1.1";
    "pynacl>=1.2.1";
    "idna>=2.5";
    "service_identity>=18.1.0";
    "Twisted>=18.9.0";
    "treq>=15.1";
    "pyopenssl>=16.0.0";
    "pyyaml>=3.11";
    "pyasn1>=0.1.9";
    "pyasn1-modules>=0.0.7";
    "bcrypt>=3.1.0";
    "pillow>=5.4.0";
    "sortedcontainers>=1.4.4";
    "pymacaroons>=0.13.0";
    "msgpack>=0.5.2";
    "phonenumbers>=8.2.0";
    "prometheus_client>=0.4.0";
    "attrs>=19.2.0,!=21.1.0";
    "netaddr>=0.7.18";
    "Jinja2>=3.0";
    "bleach>=1.4.3";
    "typing-extensions>=3.10.0";
    "cryptography>=3.4.7";
    "ijson>=3.1.4";
    "matrix-common~=1.1.0";
    "packaging>=16.1";
    "orjson>=3.6.7"
  ];
  CONDITIONAL_REQUIREMENTS_literal := [
    ("matrix-synapse-ldap3", ["matrix-synapse-ldap3>=0.1"]);
    ("postgres", [
      "psycopg2>=2.8 ; platform_python_implementation != 'PyPy'";
      "psycopg2cffi>=2.8 ; platform_python_implementation == 'PyPy'";
      "psycopg2cffi-compat==1.1 ; platform_python_implementation == 'PyPy'"
    ]);
    ("saml2", ["pysaml2>=4.5.0"]);
    ("oidc", ["authlib>=0.14.0"]);
    ("systemd", ["systemd-python>=231"]);
    ("url_preview", ["lxml>=4.2.0"]);
    ("sentry", ["sentry-sdk>=0.7.2"]);
    ("opentracing", ["jaeger-client>=4.0.0"; "opentracing>=2.2.0"]);
    ("jwt", ["pyjwt>=1.6.4"]);
    ("redis", ["txredisapi>=1.4.7"; "hiredis"]);
    ("cache_memory", ["pympler"])
  ];
|}.

(** ** Sample manifests *)

(** A specifier written with a double-quote inside. *)
Definition bad_name : string := "bad" +:+ dquote +:+ "name>=1".

(** A manifest whose required list holds the offending specifier. *)
Definition bad_required_manifest : Manifest := {|
  REQUIREMENTS_literal := ["alpha>=1.0"; bad_name; "omega"];
  CONDITIONAL_REQUIREMENTS_literal := [("x", ["beta>=2.0"])];
|}.

(** A manifest whose first offending specifier sits in the [systemd] group,
    with another one in a later group. *)
Definition bad_systemd_manifest : Manifest := {|
  REQUIREMENTS_literal := ["alpha>=1.0"];
  CONDITIONAL_REQUIREMENTS_literal :=
    [("x", ["beta>=2.0"]);
     ("systemd", ["gamma"; bad_name]);
     ("y", ["delta" +:+ dquote])];
|}.

(** A small valid manifest: a group that repeats a specifier, a specifier
    shared by two groups and by the required list, and a [systemd] group. *)
Definition small_manifest : Manifest := {|
  REQUIREMENTS_literal := ["alpha>=1.0"; "beta>=2.0"];
  CONDITIONAL_REQUIREMENTS_literal :=
    [("x", ["beta>=2.0"; "beta>=2.0"; "delta"]);
     ("systemd", ["gamma"]);
     ("y", ["delta"])];
|}.

(** ** What a manifest declares *)

(** [dep] is written somewhere in the manifest: in the required list or in
    the list of some optional group, whatever the group's name. *)
Definition declared (dep : string) (src : Manifest) : Prop :=
  dep ∈ REQUIREMENTS_literal src ∨
  ∃ name deps, (name, deps) ∈ CONDITIONAL_REQUIREMENTS_literal src ∧ dep ∈ deps.

(** No specifier of the manifest holds a double-quote. *)
Definition valid_manifest (src : Manifest) : Prop :=
  Forall (λ dep, str_in dquote dep = false) (REQUIREMENTS_literal src) ∧
  Forall (λ item, Forall (λ dep, str_in dquote dep = false) item.2)
         (CONDITIONAL_REQUIREMENTS_literal src).

(** The globals the module body binds when it runs to its end. *)
Definition globals_of (src : Manifest) : Globals := {|
  REQUIREMENTS := REQUIREMENTS_literal src;
  CONDITIONAL_REQUIREMENTS := CONDITIONAL_REQUIREMENTS_literal src;
  ALL_OPTIONAL_REQUIREMENTS :=
    all_optional_loop (dict_items (CONDITIONAL_REQUIREMENTS_literal src));
|}.

(** The specifiers in the order the validation loop meets them. *)
Definition scan_order (src : Manifest) : list string :=
  itertools_chain
    (REQUIREMENTS_literal src :: dict_values (CONDITIONAL_REQUIREMENTS_literal src)).

(** All the text [writelines] puts out for [lines]. *)
Definition written (lines : list string) : string :=
  foldr String.append "" lines.

(** ** Vocabulary for the further properties *)

(** The specifiers declared for installation, in declaration order: the
    required list, then the lists of the groups whose name passes the test
    of line 128. *)
Definition installable_declared (src : Manifest) : list string :=
  REQUIREMENTS_literal src ++
  concat (filter (λ item, not_excluded item.1 = true)
                 (CONDITIONAL_REQUIREMENTS_literal src)).*2.

(** The same declarations written in the opposite order. *)
Definition reordered (src : Manifest) : Manifest := {|
  REQUIREMENTS_literal := reverse (REQUIREMENTS_literal src);
  CONDITIONAL_REQUIREMENTS_literal :=
    reverse (CONDITIONAL_REQUIREMENTS_literal src);
|}.

(** * Properties *)

(** ** Strings *)

Section strings.
Implicit Types s t u : string.

(** stdpp keeps [String.append] from unfolding under [simpl]; these are its
    two defining equations. *)
Lemma append_nil_l s : "" +:+ s = s.
Proof. reflexivity. Qed.

Lemma append_cons c s t : String c s +:+ t = String c (s +:+ t).
Proof. reflexivity. Qed.

Lemma append_assoc s t u : (s +:+ t) +:+ u = s +:+ (t +:+ u).
Proof.
  induction s as [|c s IH]; [done |].
  by rewrite !append_cons, IH.
Qed.

Lemma append_empty_r s : s +:+ "" = s.
Proof.
  induction s as [|c s IH]; [done |].
  by rewrite append_cons, IH.
Qed.

Lemma length_append s t :
  String.length (s +:+ t) = (String.length s + String.length t)%nat.
Proof.
  induction s as [|c s IH]; [done |].
  rewrite append_cons. simpl. by rewrite IH.
Qed.

Lemma append_inj_r s t u : s +:+ u = t +:+ u → s = t.
Proof.
  revert t. induction s as [|c s IH]; intros [|d t] Heq.
  - done.
  - apply (f_equal String.length) in Heq.
    rewrite append_nil_l, append_cons in Heq. simpl in Heq.
    rewrite length_append in Heq. lia.
  - apply (f_equal String.length) in Heq.
    rewrite append_nil_l, append_cons in Heq. simpl in Heq.
    rewrite length_append in Heq. lia.
  - rewrite !append_cons in Heq. injection Heq as -> Heq.
    f_equal. by apply IH.
Qed.

(** [String.prefix] tests for a prefix. *)
Lemma prefix_true s t : String.prefix s t = true ↔ ∃ u, t = s +:+ u.
Proof.
  revert t. induction s as [|c s IH]; intros t.
  - split; [intros _; by exists t | by destruct t].
  - destruct t as [|d t]; simpl.
    + split; [done | by intros [u Hu]].
    + destruct (Ascii.ascii_dec c d) as [-> | Hne].
      * rewrite IH. split; intros [u Hu]; exists u.
        -- by rewrite append_cons, Hu.
        -- rewrite append_cons in Hu. congruence.
      * split; [done |]. intros [u Hu].
        rewrite append_cons in Hu. congruence.
Qed.

Lemma str_in_empty s :
  str_in s "" = if String.prefix s "" then true else false.
Proof. reflexivity. Qed.

Lemma str_in_cons s d t :
  str_in s (String d t) =
  if String.prefix s (String d t) then true else str_in s t.
Proof. reflexivity. Qed.

(** [str_in] is the substring test of Python's [in] on strings. *)
Lemma str_in_true s t : str_in s t = true ↔ ∃ u v, t = u +:+ s +:+ v.
Proof.
  induction t as [|d t IH]; [rewrite str_in_empty | rewrite str_in_cons].
  - destruct (String.prefix s "") eqn:Hp.
    + apply prefix_true in Hp as [v Hv]. split; [|done]. intros _.
      by exists "", v.
    + split; [done |]. intros (u & v & Huv).
      destruct u; [|done]. rewrite append_nil_l in Huv.
      assert (String.prefix s "" = true) by (apply prefix_true; eauto).
      congruence.
  - destruct (String.prefix s (String d t)) eqn:Hp.
    + apply prefix_true in Hp as [v Hv]. split; [|done]. intros _.
      by exists "", v.
    + rewrite IH. split.
      * intros (u & v & ->). by exists (String d u), v.
      * intros (u & v & Huv). destruct u as [|c u].
        -- rewrite append_nil_l in Huv.
           assert (String.prefix s (String d t) = true)
             by (apply prefix_true; eauto).
           congruence.
        -- rewrite append_cons in Huv. injection Huv as _ ->. eauto.
Qed.

(** The message names its specifier: two specifiers with the same message
    are the same. *)
Lemma double_quote_message_inj dep dep' :
  double_quote_message dep = double_quote_message dep' → dep = dep'.
Proof.
  unfold double_quote_message. intros Heq.
  apply (inj (String.append _)) in Heq. by apply append_inj_r in Heq.
Qed.

End strings.

(** ** The exclusion test *)

Lemma not_excluded_true name : not_excluded name = true ↔ name ≠ "systemd".
Proof.
  unfold not_excluded. simpl. rewrite orb_false_r, negb_true_iff.
  destruct (String.eqb_spec name "systemd"); naive_solver.
Qed.

Lemma not_excluded_false name : not_excluded name = false ↔ name = "systemd".
Proof.
  unfold not_excluded. simpl. rewrite orb_false_r, negb_false_iff.
  apply String.eqb_eq.
Qed.

(** ** The loop building [ALL_OPTIONAL_REQUIREMENTS] *)

Lemma elem_of_all_optional_step x acc item :
  x ∈ all_optional_step acc item ↔
  (not_excluded item.1 = true ∧ x ∈ item.2) ∨ x ∈ acc.
Proof.
  destruct item as [name deps]. simpl.
  destruct (not_excluded name).
  - rewrite elem_of_union, elem_of_list_to_set. naive_solver.
  - naive_solver.
Qed.

(** Membership after the loop, from any starting set. *)
Lemma elem_of_foldl_all_optional_step x items : ∀ acc,
  x ∈ foldl all_optional_step acc items ↔
  (∃ name deps, (name, deps) ∈ items ∧ not_excluded name = true ∧ x ∈ deps)
  ∨ x ∈ acc.
Proof.
  induction items as [|item items IH]; intros acc; simpl.
  - split; [by right |]. intros [(name & deps & Hin & _) | Hacc]; [|done].
    by apply elem_of_nil in Hin.
  - rewrite IH, elem_of_all_optional_step. split.
    + intros [(name & deps & Hin & Hname & Hx) | [[Hname Hx] | Hacc]].
      * left. exists name, deps. split; [by right | done].
      * left. exists item.1, item.2. split; [|done].
        destruct item; by left.
      * by right.
    + intros [(name & deps & Hin & Hname & Hx) | Hacc]; [|by right; right].
      apply elem_of_cons in Hin as [<- | Hin].
      * right; left. done.
      * left. by exists name, deps.
Qed.

Lemma elem_of_all_optional_loop x items :
  x ∈ all_optional_loop items ↔
  ∃ name deps, (name, deps) ∈ items ∧ not_excluded name = true ∧ x ∈ deps.
Proof.
  unfold all_optional_loop. rewrite elem_of_foldl_all_optional_step.
  set_solver.
Qed.

(** Two iterations of the loop commute. *)
Lemma all_optional_step_comm acc item1 item2 :
  all_optional_step (all_optional_step acc item1) item2 =
  all_optional_step (all_optional_step acc item2) item1.
Proof.
  destruct item1 as [n1 d1], item2 as [n2 d2]. simpl.
  destruct (not_excluded n1), (not_excluded n2); set_solver.
Qed.

(** ** The validation loop *)

Section validation.
Implicit Types deps pre post : list string.
Implicit Types out : string.

(** With no double-quote in sight the loop runs to its end, raising nothing
    and writing nothing. *)
Lemma validation_loop_clean deps out :
  Forall (λ dep, str_in dquote dep = false) deps →
  validation_loop deps out = (inr (), out).
Proof.
  induction 1 as [|dep deps Hdep _ IH]; simpl; [done |].
  by rewrite Hdep.
Qed.

(** The loop stops at the first specifier holding a double-quote. *)
Lemma validation_loop_first pre dep post out :
  Forall (λ dep, str_in dquote dep = false) pre →
  str_in dquote dep = true →
  validation_loop (pre ++ dep :: post) out =
  (inl (Exception (double_quote_message dep)), out).
Proof.
  intros Hpre Hdep. induction Hpre as [|d pre Hd _ IH]; simpl.
  - by rewrite Hdep.
  - by rewrite Hd.
Qed.

(** A list with an offending specifier splits at its first one. *)
Lemma first_offender deps :
  (∃ dep, dep ∈ deps ∧ str_in dquote dep = true) →
  ∃ pre dep post,
    deps = pre ++ dep :: post ∧
    Forall (λ dep, str_in dquote dep = false) pre ∧
    str_in dquote dep = true.
Proof.
  induction deps as [|d deps IH]; intros (dep & Hin & Hdep).
  - by apply elem_of_nil in Hin.
  - destruct (str_in dquote d) eqn:Hd.
    + by exists [], d, deps.
    + apply elem_of_cons in Hin as [-> | Hin]; [congruence |].
      destruct IH as (pre & dep' & post & -> & Hpre & Hdep'); [by exists dep |].
      exists (d :: pre), dep', post. split_and!; [done | by constructor | done].
Qed.

End validation.

Lemma elem_of_concat {A} (x : A) (ls : list (list A)) :
  x ∈ concat ls ↔ ∃ l, x ∈ l ∧ l ∈ ls.
Proof.
  induction ls as [|l0 ls IH]; simpl.
  - split; [by intros ?%elem_of_nil | by intros (l & _ & ?%elem_of_nil)].
  - rewrite elem_of_app, IH. setoid_rewrite elem_of_cons. naive_solver.
Qed.

(** The loop scans exactly the declared specifiers. *)
Lemma elem_of_scan_order dep src : dep ∈ scan_order src ↔ declared dep src.
Proof.
  unfold scan_order, itertools_chain, dict_values, declared. simpl.
  rewrite elem_of_app. apply or_iff_compat_l.
  rewrite elem_of_concat. split.
  - intros (deps & Hdep & Hdeps).
    apply list_elem_of_fmap in Hdeps as ([name deps'] & -> & Hin).
    by exists name, deps'.
  - intros (name & deps & Hin & Hdep). exists deps. split; [done |].
    by apply (list_elem_of_fmap_2 snd _ (name, deps)).
Qed.

Lemma valid_manifest_scan_order src :
  valid_manifest src ↔ Forall (λ dep, str_in dquote dep = false) (scan_order src).
Proof.
  unfold valid_manifest, scan_order, itertools_chain, dict_values. simpl.
  rewrite Forall_app. apply and_iff_compat_l.
  induction (CONDITIONAL_REQUIREMENTS_literal src) as [|[name deps] items IH];
    simpl.
  - split; constructor.
  - rewrite Forall_cons, Forall_app, IH. done.
Qed.

(** ** Writing lines *)

Lemma stdout_writelines_spec lines : ∀ out,
  stdout_writelines lines out = (inr (), out +:+ written lines).
Proof.
  induction lines as [|line lines IH]; intros out; simpl.
  - unfold ret. by rewrite append_empty_r.
  - unfold bind, stdout_write at 1. rewrite IH. by rewrite append_assoc.
Qed.

(** ** The module body *)

Section module_body.
Variable src : Manifest.
Implicit Types out name : string.

(** On a valid manifest the body runs to its end and binds [globals_of]. *)
Lemma exec_module_valid name out :
  valid_manifest src →
  exec_module name src out =
  if String.eqb name "__main__"
  then (inr (globals_of src),
        out +:+ written ((λ req, req +:+ newline) <$> list_requirements (globals_of src)))
  else (inr (globals_of src), out).
Proof.
  intros Hvalid%valid_manifest_scan_order.
  unfold exec_module, bind. fold (scan_order src).
  rewrite (validation_loop_clean _ _ Hvalid). fold (globals_of src).
  destruct (String.eqb name "__main__"); [|done].
  by rewrite stdout_writelines_spec.
Qed.

(** With an offending specifier the body stops in the validation loop,
    under any name, having written nothing. *)
Lemma exec_module_offender name out pre dep post :
  scan_order src = pre ++ dep :: post →
  Forall (λ dep, str_in dquote dep = false) pre →
  str_in dquote dep = true →
  exec_module name src out = (inl (Exception (double_quote_message dep)), out).
Proof.
  intros Hscan Hpre Hdep.
  unfold exec_module, bind. fold (scan_order src).
  by rewrite Hscan, (validation_loop_first _ _ _ _ Hpre Hdep).
Qed.

Lemma import_module_valid :
  valid_manifest src → import_module src = inr (globals_of src).
Proof.
  intros Hvalid. unfold import_module.
  by rewrite (exec_module_valid _ _ Hvalid).
Qed.

(** Whatever module an import yields, its globals are [globals_of]. *)
Lemma import_module_inr g : import_module src = inr g → g = globals_of src.
Proof.
  unfold import_module, exec_module, bind. fold (scan_order src).
  destruct (validation_loop (scan_order src) "") as [[e|[]] out']; simpl;
    [done |].
  fold (globals_of src). unfold ret. simpl. congruence.
Qed.

End module_body.

(** ** Dict subscripts *)

Section dict_facts.
Context {V : Type}.
Implicit Types d : dict V.

Lemma dict_getitem_missing d k : k ∉ d.*1 → dict_getitem d k = inl (KeyError k).
Proof.
  induction d as [|[k' v] d IH]; simpl; [done |].
  intros [Hne Hnin]%not_elem_of_cons.
  destruct (String.eqb_spec k k'); [done | by apply IH].
Qed.

Lemma dict_getitem_present d k v :
  dict_wf d → (k, v) ∈ d → dict_getitem d k = inr v.
Proof.
  unfold dict_wf. induction d as [|[k' v'] d IH]; simpl.
  - intros _ Hin. by apply elem_of_nil in Hin.
  - intros [Hnin Hnd]%NoDup_cons [Heq | Hin]%elem_of_cons.
    + injection Heq as -> ->. by rewrite String.eqb_refl.
    + destruct (String.eqb_spec k k') as [-> | Hne]; [|by apply IH].
      exfalso. apply Hnin. by apply (list_elem_of_fmap_2 fst _ (k', v)).
Qed.

End dict_facts.

(** ** The sample manifests are valid or not, as intended *)

Lemma synapse_manifest_valid : valid_manifest synapse_manifest.
Proof. split; repeat constructor. Qed.

Lemma small_manifest_valid : valid_manifest small_manifest.
Proof. split; repeat constructor. Qed.

(** ** Completeness of [list_requirements] *)

(** C1.  On a manifest with no double-quote in any specifier the module
    loads, and [list_requirements()] holds every specifier of
    [REQUIREMENTS] and every specifier of every optional group whose name
    is not [systemd]. *)
Theorem list_requirements_complete src :
  valid_manifest src →
  ∃ g, import_module src = inr g ∧
    (∀ dep, dep ∈ REQUIREMENTS_literal src → dep ∈ list_requirements g) ∧
    (∀ name deps dep,
       (name, deps) ∈ CONDITIONAL_REQUIREMENTS_literal src →
       name ≠ "systemd" → dep ∈ deps → dep ∈ list_requirements g).
Proof.
  intros Hvalid. exists (globals_of src).
  split; [by apply import_module_valid |].
  unfold list_requirements. simpl. split.
  - intros dep Hdep.
    rewrite elem_of_elements, elem_of_union, elem_of_list_to_set. by left.
  - intros name deps dep Hin Hname Hdep.
    rewrite elem_of_elements, elem_of_union, elem_of_all_optional_loop.
    right. exists name, deps. by rewrite not_excluded_true.
Qed.

Lemma list_requirements_complete_witness :
  valid_manifest synapse_manifest ∧
  ∃ g, import_module synapse_manifest = inr g ∧
    (∀ dep, dep ∈ REQUIREMENTS_literal synapse_manifest →
            dep ∈ list_requirements g) ∧
    (∀ name deps dep,
       (name, deps) ∈ CONDITIONAL_REQUIREMENTS_literal synapse_manifest →
       name ≠ "systemd" → dep ∈ deps → dep ∈ list_requirements g).
Proof.
  split.
  - split; repeat constructor.
  - apply (list_requirements_complete synapse_manifest).
    split; repeat constructor.
Defined.

(** ** Uniqueness in [list_requirements] *)

(** C2.  On a valid manifest the list [list_requirements()] returns holds
    each distinct specifier declared in [REQUIREMENTS] or in a group other
    than [systemd] exactly once: it stands at one position and at no other,
    no element of the list stands at two different positions, and the list
    has no element besides these specifiers. *)
Theorem list_requirements_unique src :
  valid_manifest src →
  ∃ g, import_module src = inr g ∧
    NoDup (list_requirements g) ∧
    (∀ i j dep,
       list_requirements g !! i = Some dep →
       list_requirements g !! j = Some dep → i = j) ∧
    (∀ dep,
       dep ∈ REQUIREMENTS_literal src ∨
       (∃ name deps, (name, deps) ∈ CONDITIONAL_REQUIREMENTS_literal src ∧
                     name ≠ "systemd" ∧ dep ∈ deps) →
       ∃ i, list_requirements g !! i = Some dep ∧
            ∀ j, list_requirements g !! j = Some dep → j = i) ∧
    (∀ i dep,
       list_requirements g !! i = Some dep →
       dep ∈ REQUIREMENTS_literal src ∨
       ∃ name deps, (name, deps) ∈ CONDITIONAL_REQUIREMENTS_literal src ∧
                    name ≠ "systemd" ∧ dep ∈ deps).
Proof.
  intros Hvalid. exists (globals_of src).
  split; [by apply import_module_valid |].
  assert (NoDup (list_requirements (globals_of src))) as Hnd
    by (unfold list_requirements; apply NoDup_elements).
  assert (∀ dep, dep ∈ list_requirements (globals_of src) ↔
            dep ∈ REQUIREMENTS_literal src ∨
            ∃ name deps, (name, deps) ∈ CONDITIONAL_REQUIREMENTS_literal src ∧
                         name ≠ "systemd" ∧ dep ∈ deps) as Hmem.
  { intros dep. unfold list_requirements. simpl.
    rewrite elem_of_elements, elem_of_union, elem_of_list_to_set,
      elem_of_all_optional_loop.
    apply or_iff_compat_l. by setoid_rewrite not_excluded_true. }
  pose proof (proj1 (NoDup_alt _) Hnd) as Hpos.
  split_and!.
  - done.
  - done.
  - intros dep Hdecl. apply Hmem, list_elem_of_lookup in Hdecl as [i Hi].
    exists i. split; [done |]. intros j Hj. by apply (Hpos j i dep).
  - intros i dep Hi. apply Hmem. by eapply list_elem_of_lookup_2.
Qed.

Lemma list_requirements_unique_witness :
  valid_manifest small_manifest ∧
  ∃ g, import_module small_manifest = inr g ∧
    NoDup (list_requirements g) ∧
    (∀ i j dep,
       list_requirements g !! i = Some dep →
       list_requirements g !! j = Some dep → i = j) ∧
    (∀ dep,
       dep ∈ REQUIREMENTS_literal small_manifest ∨
       (∃ name deps,
          (name, deps) ∈ CONDITIONAL_REQUIREMENTS_literal small_manifest ∧
          name ≠ "systemd" ∧ dep ∈ deps) →
       ∃ i, list_requirements g !! i = Some dep ∧
            ∀ j, list_requirements g !! j = Some dep → j = i) ∧
    (∀ i dep,
       list_requirements g !! i = Some dep →
       dep ∈ REQUIREMENTS_literal small_manifest ∨
       ∃ name deps,
         (name, deps) ∈ CONDITIONAL_REQUIREMENTS_literal small_manifest ∧
         name ≠ "systemd" ∧ dep ∈ deps).
Proof.
  split.
  - split; repeat constructor.
  - apply (list_requirements_unique small_manifest).
    split; repeat constructor.
Defined.

(** The list for [small_manifest] has its three distinct specifiers, with
    [gamma] of the [systemd] group left out. *)
Example list_requirements_small :
  list_requirements (globals_of small_manifest) ≡ₚ
  ["alpha>=1.0"; "beta>=2.0"; "delta"].
Proof. vm_compute. reflexivity. Qed.

(** ** Exclusion of the [systemd] group *)

(** C3.  A specifier declared in the [systemd] group and in no group of
    another name is not in [ALL_OPTIONAL_REQUIREMENTS], and is in the list
    the subscript [CONDITIONAL_REQUIREMENTS["systemd"]] gives. *)
Theorem excluded_only_specifier src g deps dep :
  dict_wf (CONDITIONAL_REQUIREMENTS_literal src) →
  import_module src = inr g →
  ("systemd", deps) ∈ CONDITIONAL_REQUIREMENTS_literal src →
  dep ∈ deps →
  (∀ name' deps',
     (name', deps') ∈ CONDITIONAL_REQUIREMENTS_literal src →
     dep ∈ deps' → name' = "systemd") →
  (dep ∉ ALL_OPTIONAL_REQUIREMENTS g) ∧
  (∃ group, group_lookup "systemd" g = (inr group, g) ∧ dep ∈ group).
Proof.
  intros Hwf Himport Hgroup Hdep Honly.
  apply import_module_inr in Himport as ->. split.
  - simpl. rewrite elem_of_all_optional_loop.
    intros (name' & deps' & Hin & Hname & Hdep').
    apply not_excluded_true in Hname. apply Hname. by eapply Honly.
  - exists deps. split; [|done].
    unfold group_lookup. simpl. f_equal.
    by apply dict_getitem_present.
Qed.

Lemma excluded_only_specifier_witness :
  ("systemd-python>=231" ∉
     ALL_OPTIONAL_REQUIREMENTS (globals_of synapse_manifest)) ∧
  (∃ group,
     group_lookup "systemd" (globals_of synapse_manifest) =
       (inr group, globals_of synapse_manifest) ∧
     "systemd-python>=231" ∈ group).
Proof.
  apply (excluded_only_specifier synapse_manifest (globals_of synapse_manifest)
           ["systemd-python>=231"] "systemd-python>=231").
  - unfold dict_wf. compute_done.
  - apply import_module_valid. split; repeat constructor.
  - compute_done.
  - compute_done.
  - intros name' deps' Hin Hdep. simpl in Hin.
    repeat (apply elem_of_cons in Hin as [[= -> ->] | Hin];
            [revert Hdep; compute_done |]).
    by apply elem_of_nil in Hin.
Defined.

(** ** The validation loop *)

(** C4.  When some declared specifier holds a double-quote, in the required
    list or in any group, [systemd] included, the module body raises,
    under any [__name__] and having written nothing, the exception whose
    message is built from the first such specifier met when the required
    list is scanned first and the groups after it in declaration order; and
    the message belongs to no other specifier. *)
Theorem validation_raises_first_offender src name out :
  (∃ dep, declared dep src ∧ str_in dquote dep = true) →
  ∃ pre dep post,
    REQUIREMENTS_literal src ++
      concat (CONDITIONAL_REQUIREMENTS_literal src).*2 = pre ++ dep :: post ∧
    Forall (λ d, str_in dquote d = false) pre ∧
    str_in dquote dep = true ∧
    exec_module name src out =
      (inl (Exception (double_quote_message dep)), out) ∧
    ∀ dep', double_quote_message dep' = double_quote_message dep → dep' = dep.
Proof.
  intros (dep0 & Hdecl & Hbad).
  destruct (first_offender (scan_order src)) as (pre & dep & post & Hscan & Hpre & Hdep).
  { exists dep0. by rewrite elem_of_scan_order. }
  exists pre, dep, post. split_and!; try done.
  - by eapply exec_module_offender.
  - intros dep'. apply double_quote_message_inj.
Qed.

Lemma validation_raises_first_offender_witness :
  (∃ dep, declared dep bad_systemd_manifest ∧ str_in dquote dep = true) ∧
  ∃ pre dep post,
    REQUIREMENTS_literal bad_systemd_manifest ++
      concat (CONDITIONAL_REQUIREMENTS_literal bad_systemd_manifest).*2 =
      pre ++ dep :: post ∧
    Forall (λ d, str_in dquote d = false) pre ∧
    str_in dquote dep = true ∧
    exec_module "__main__" bad_systemd_manifest "" =
      (inl (Exception (double_quote_message dep)), "") ∧
    ∀ dep', double_quote_message dep' = double_quote_message dep → dep' = dep.
Proof.
  assert (∃ dep, declared dep bad_systemd_manifest ∧ str_in dquote dep = true)
    as Hbad.
  { exists ("delta" +:+ dquote). split; [|reflexivity].
    right. exists "y", ["delta" +:+ dquote]. split; compute_done. }
  split; [exact Hbad |].
  exact (validation_raises_first_offender bad_systemd_manifest "__main__" "" Hbad).
Defined.

(** On [bad_systemd_manifest] the exception names the specifier of the
    [systemd] group, not the later one of group [y]. *)
Example validation_bad_systemd :
  exec_module "__main__" bad_systemd_manifest "" =
    (inl (Exception (double_quote_message bad_name)), "").
Proof. reflexivity. Qed.

(** ** A manifest with a double-quote does not load *)

(** C5.  When some declared specifier holds a double-quote, importing the
    module ends in the exception and yields no module, so there are no
    globals on which [list_requirements] or a group subscript could be
    evaluated; and under any [__name__], [__main__] included, the body
    stops with the exception before anything is written. *)
Theorem invalid_manifest_fails_to_load src :
  (∃ dep, declared dep src ∧ str_in dquote dep = true) →
  (∃ msg, import_module src = inl (Exception msg)) ∧
  (∀ g, import_module src ≠ inr g) ∧
  (∀ name out, ∃ e, exec_module name src out = (inl e, out)).
Proof.
  intros (dep0 & Hdecl & Hbad).
  destruct (first_offender (scan_order src))
    as (pre & dep & post & Hscan & Hpre & Hdep).
  { exists dep0. by rewrite elem_of_scan_order. }
  pose proof (λ name out,
    exec_module_offender src name out pre dep post Hscan Hpre Hdep) as Hexec.
  assert (import_module src = inl (Exception (double_quote_message dep)))
    as Himport by (unfold import_module; by rewrite Hexec).
  split_and!.
  - by eexists.
  - intros g. by rewrite Himport.
  - intros name out. eexists. apply Hexec.
Qed.

Lemma invalid_manifest_fails_to_load_witness :
  (∃ dep, declared dep bad_required_manifest ∧ str_in dquote dep = true) ∧
  (∃ msg, import_module bad_required_manifest = inl (Exception msg)) ∧
  (∀ g, import_module bad_required_manifest ≠ inr g) ∧
  (∀ name out, ∃ e, exec_module name bad_required_manifest out = (inl e, out)).
Proof.
  assert (∃ dep, declared dep bad_required_manifest ∧ str_in dquote dep = true)
    as Hbad.
  { exists bad_name. split; [|reflexivity]. left. compute_done. }
  split; [exact Hbad |].
  exact (invalid_manifest_fails_to_load bad_required_manifest Hbad).
Defined.

(** ** Reading one optional group *)

(** C6.  On the loaded module, [listGroup] of a name that is a key of
    [CONDITIONAL_REQUIREMENTS] gives the list declared for that group in the
    module text, as declared, order and repetitions kept; of any other name
    it fails with [UnknownGroupError]; in both cases the registry is as
    before. *)
Theorem listGroup_spec src g :
  dict_wf (CONDITIONAL_REQUIREMENTS_literal src) →
  import_module src = inr g →
  (∀ name deps,
     (name, deps) ∈ CONDITIONAL_REQUIREMENTS_literal src →
     listGroup name g = (inr deps, g)) ∧
  (∀ name,
     name ∉ (CONDITIONAL_REQUIREMENTS_literal src).*1 →
     listGroup name g = (inl (UnknownGroupError name), g)).
Proof.
  intros Hwf ->%import_module_inr. unfold listGroup. simpl. split.
  - intros name deps Hin. by rewrite (dict_getitem_present _ _ _ Hwf Hin).
  - intros name Hnin. by rewrite (dict_getitem_missing _ _ Hnin).
Qed.

Lemma listGroup_spec_witness :
  listGroup "x" (globals_of small_manifest) =
    (inr ["beta>=2.0"; "beta>=2.0"; "delta"], globals_of small_manifest) ∧
  listGroup "systemd" (globals_of small_manifest) =
    (inr ["gamma"], globals_of small_manifest) ∧
  listGroup "nonexistent" (globals_of small_manifest) =
    (inl (UnknownGroupError "nonexistent"), globals_of small_manifest).
Proof.
  destruct (listGroup_spec small_manifest (globals_of small_manifest))
    as [Hkey Hmiss].
  - unfold dict_wf. compute_done.
  - vm_compute. reflexivity.
  - split_and!.
    + apply Hkey. compute_done.
    + apply Hkey. compute_done.
    + apply Hmiss. compute_done.
Defined.

(** ** The module run as a program *)

(** C7.  Run as a program on a valid manifest, the module writes the
    elements of [list_requirements()], each followed by a line feed and
    nothing else, to standard output, nothing to standard error, and the
    exit status is 0.  On a manifest with an offending specifier the exit
    status is 1, standard output is empty, and standard error ends with the
    line that carries the exception's message. *)
Theorem run_as_main_spec traceback src :
  (valid_manifest src →
   run_as_main traceback src =
     {| exit_code := 0;
        stdout := written ((λ req, req +:+ newline) <$>
                             list_requirements (globals_of src));
        stderr := "" |}) ∧
  ((∃ dep, declared dep src ∧ str_in dquote dep = true) →
   ∃ dep, declared dep src ∧ str_in dquote dep = true ∧
     run_as_main traceback src =
       {| exit_code := 1;
          stdout := "";
          stderr := traceback +:+ "Exception: " +:+
                      double_quote_message dep +:+ newline |}).
Proof.
  unfold run_as_main. split.
  - intros Hvalid. by rewrite (exec_module_valid src _ _ Hvalid).
  - intros (dep0 & Hdecl & Hbad).
    destruct (first_offender (scan_order src))
      as (pre & dep & post & Hscan & Hpre & Hdep).
    { exists dep0. by rewrite elem_of_scan_order. }
    exists dep. split_and!; [|done|].
    + apply elem_of_scan_order. rewrite Hscan. set_solver.
    + by rewrite (exec_module_offender src _ _ pre dep post Hscan Hpre Hdep).
Qed.

Lemma run_as_main_spec_witness :
  run_as_main "Traceback" small_manifest =
    {| exit_code := 0;
       stdout := written ((λ req, req +:+ newline) <$>
                            list_requirements (globals_of small_manifest));
       stderr := "" |} ∧
  ∃ dep, declared dep bad_required_manifest ∧ str_in dquote dep = true ∧
    run_as_main "Traceback" bad_required_manifest =
      {| exit_code := 1;
         stdout := "";
         stderr := "Traceback" +:+ "Exception: " +:+
                     double_quote_message dep +:+ newline |}.
Proof.
  split.
  - apply (proj1 (run_as_main_spec "Traceback" small_manifest)).
    split; repeat constructor.
  - apply (proj2 (run_as_main_spec "Traceback" bad_required_manifest)).
    exists bad_name. split; [|reflexivity]. left. compute_done.
Defined.

(** The run on [bad_required_manifest]: the report ends with the message
    that quotes the offending specifier. *)
Example run_as_main_bad_required :
  run_as_main "Traceback" bad_required_manifest =
    {| exit_code := 1;
       stdout := "";
       stderr := "Traceback" +:+ "Exception: Dependency `" +:+ bad_name +:+
                 "` contains double-quote; use single-quotes instead" +:+
                 newline |}.
Proof. reflexivity. Qed.

(** ** Repeated calls *)

Section store_steps.
Implicit Types st : Store.
Implicit Types r : Ref.
Implicit Types o : PyObject.

Lemma py_bind_inr {A B} (c : Py A) (k : A → Py B) st a st' :
  c st = (inr a, st') → (c ≫= k) st = k a st'.
Proof. intros Hc. unfold mbind, py_bind. by rewrite Hc. Qed.

Lemma load_global_run st name r :
  module_globals st !! name = Some r → load_global name st = (inr r, st).
Proof. intros Hname. unfold load_global. by rewrite Hname. Qed.

Lemma deref_run st r o : heap st !! r = Some o → deref r st = (inr o, st).
Proof. intros Hr. unfold deref. by rewrite Hr. Qed.

Lemma store_add_old st o r o' :
  heap st !! r = Some o' → heap (store_add o st) !! r = Some o'.
Proof. intros Hr. unfold store_add. simpl. by apply lookup_app_l_Some. Qed.

Lemma store_add_new st o : heap (store_add o st) !! length (heap st) = Some o.
Proof. unfold store_add. simpl. by apply list_lookup_middle. Qed.

Lemma store_add_length st o :
  length (heap (store_add o st)) = S (length (heap st)).
Proof. unfold store_add. simpl. rewrite length_app. simpl. lia. Qed.

Lemma builtin_set_list st r items :
  heap st !! r = Some (ListObject items) →
  builtin_set r st =
  (inr (length (heap st)), store_add (SetObject (list_to_set items)) st).
Proof.
  intros Hr. unfold builtin_set. by rewrite (py_bind_inr _ _ _ _ _ (deref_run _ _ _ Hr)).
Qed.

Lemma binary_or_sets st a b s t :
  heap st !! a = Some (SetObject s) →
  heap st !! b = Some (SetObject t) →
  binary_or a b st = (inr (length (heap st)), store_add (SetObject (s ∪ t)) st).
Proof.
  intros Ha Hb. unfold binary_or.
  rewrite (py_bind_inr _ _ _ _ _ (deref_run _ _ _ Ha)).
  by rewrite (py_bind_inr _ _ _ _ _ (deref_run _ _ _ Hb)).
Qed.

Lemma builtin_list_set st r elems :
  heap st !! r = Some (SetObject elems) →
  builtin_list r st =
  (inr (length (heap st)), store_add (ListObject (elements elems)) st).
Proof.
  intros Hr. unfold builtin_list. by rewrite (py_bind_inr _ _ _ _ _ (deref_run _ _ _ Hr)).
Qed.

(** One call adds three objects to the store, the two sets it builds on
    the way and the list it returns, and does nothing else to it. *)
Lemma call_list_requirements_run st rreq rall lreq sall :
  module_globals st !! "REQUIREMENTS" = Some rreq →
  heap st !! rreq = Some (ListObject lreq) →
  module_globals st !! "ALL_OPTIONAL_REQUIREMENTS" = Some rall →
  heap st !! rall = Some (SetObject sall) →
  call_list_requirements st =
  (inr (S (S (length (heap st)))),
   store_add (ListObject (elements (list_to_set lreq ∪ sall)))
     (store_add (SetObject (list_to_set lreq ∪ sall))
        (store_add (SetObject (list_to_set lreq)) st))).
Proof.
  intros Hreq_name Hreq_obj Hall_name Hall_obj. unfold call_list_requirements.
  rewrite (py_bind_inr _ _ _ _ _ (load_global_run _ _ _ Hreq_name)).
  rewrite (py_bind_inr _ _ _ _ _ (builtin_set_list _ _ _ Hreq_obj)).
  set (st1 := store_add (SetObject (list_to_set lreq)) st).
  assert (module_globals st1 !! "ALL_OPTIONAL_REQUIREMENTS" = Some rall)
    as Hall_name1 by done.
  rewrite (py_bind_inr _ _ _ _ _ (load_global_run _ _ _ Hall_name1)).
  rewrite (py_bind_inr _ _ _ _ _
             (binary_or_sets st1 _ _ _ _
                (store_add_new st _) (store_add_old st _ _ _ Hall_obj))).
  rewrite (builtin_list_set _ _ _ (store_add_new st1 _)).
  subst st1. by rewrite !store_add_length.
Qed.

End store_steps.

(** On the store left by the module body the call returns a new list
    object that holds [list_requirements g]. *)
Lemma call_list_requirements_store_of g :
  ∃ r st',
    call_list_requirements (store_of g) = (inr r, st') ∧
    heap st' !! r = Some (ListObject (list_requirements g)).
Proof.
  eexists _, _. split.
  - by apply (call_list_requirements_run (store_of g) 0 1
                (REQUIREMENTS g) (ALL_OPTIONAL_REQUIREMENTS g)).
  - reflexivity.
Qed.

(** C8.  In any store where [REQUIREMENTS] is bound to a list and
    [ALL_OPTIONAL_REQUIREMENTS] to a set, two calls of
    [list_requirements()] in succession both return, each a list of its
    own, and the two lists hold the same specifiers, those of the list and
    of the set; the calls rebind no global and leave every object that
    existed before them as it was. *)
Theorem list_requirements_twice st rreq rall lreq sall :
  module_globals st !! "REQUIREMENTS" = Some rreq →
  heap st !! rreq = Some (ListObject lreq) →
  module_globals st !! "ALL_OPTIONAL_REQUIREMENTS" = Some rall →
  heap st !! rall = Some (SetObject sall) →
  ∃ r1 r2 l1 l2 st',
    call_list_requirements_twice st = (inr (r1, r2), st') ∧
    heap st' !! r1 = Some (ListObject l1) ∧
    heap st' !! r2 = Some (ListObject l2) ∧
    r1 ≠ r2 ∧
    list_to_set l1 =@{gset string} list_to_set l2 ∧
    (∀ dep, dep ∈ l1 ↔ dep ∈ l2) ∧
    (∀ dep, dep ∈ l1 ↔ dep ∈ lreq ∨ dep ∈ sall) ∧
    module_globals st' = module_globals st ∧
    (∀ r o, heap st !! r = Some o → heap st' !! r = Some o).
Proof.
  intros Hreq_name Hreq_obj Hall_name Hall_obj.
  pose proof (call_list_requirements_run st rreq rall lreq sall
                Hreq_name Hreq_obj Hall_name Hall_obj) as Hfirst.
  set (result := elements (list_to_set lreq ∪ sall)) in *.
  set (st_a := store_add (SetObject (list_to_set lreq)) st) in *.
  set (st_b := store_add (SetObject (list_to_set lreq ∪ sall)) st_a) in *.
  set (st1 := store_add (ListObject result) st_b) in *.
  assert (∀ r o, heap st !! r = Some o → heap st1 !! r = Some o) as Hkept1.
  { intros r o Hr. by do 3 apply store_add_old. }
  pose proof (call_list_requirements_run st1 rreq rall lreq sall
                Hreq_name (Hkept1 _ _ Hreq_obj)
                Hall_name (Hkept1 _ _ Hall_obj)) as Hsecond.
  fold result in Hsecond.
  set (st_c := store_add (SetObject (list_to_set lreq)) st1) in *.
  set (st_d := store_add (SetObject (list_to_set lreq ∪ sall)) st_c) in *.
  set (st2 := store_add (ListObject result) st_d) in *.
  exists (S (S (length (heap st)))), (S (S (length (heap st1)))), result, result, st2.
  split_and!.
  - unfold call_list_requirements_twice.
    rewrite (py_bind_inr _ _ _ _ _ Hfirst).
    by rewrite (py_bind_inr _ _ _ _ _ Hsecond).
  - do 3 apply store_add_old.
    replace (S (S (length (heap st)))) with (length (heap st_b))
      by (unfold st_b, st_a; by rewrite !store_add_length).
    apply store_add_new.
  - replace (S (S (length (heap st1)))) with (length (heap st_d))
      by (unfold st_d, st_c; by rewrite !store_add_length).
    apply store_add_new.
  - unfold st1, st_b, st_a. rewrite !store_add_length. lia.
  - done.
  - done.
  - intros dep. unfold result.
    by rewrite elem_of_elements, elem_of_union, elem_of_list_to_set.
  - done.
  - intros r o Hr. do 3 apply store_add_old. by apply Hkept1.
Qed.

Lemma list_requirements_twice_witness :
  ∃ r1 r2 l1 l2 st',
    call_list_requirements_twice (store_of (globals_of synapse_manifest)) =
      (inr (r1, r2), st') ∧
    heap st' !! r1 = Some (ListObject l1) ∧
    heap st' !! r2 = Some (ListObject l2) ∧
    r1 ≠ r2 ∧
    list_to_set l1 =@{gset string} list_to_set l2 ∧
    (∀ dep, dep ∈ l1 ↔ dep ∈ l2) ∧
    (∀ dep, dep ∈ l1 ↔
            dep ∈ REQUIREMENTS (globals_of synapse_manifest) ∨
            dep ∈ ALL_OPTIONAL_REQUIREMENTS (globals_of synapse_manifest)) ∧
    module_globals st' =
      module_globals (store_of (globals_of synapse_manifest)) ∧
    (∀ r o, heap (store_of (globals_of synapse_manifest)) !! r = Some o →
            heap st' !! r = Some o).
Proof.
  apply (list_requirements_twice (store_of (globals_of synapse_manifest)) 0 1).
  - reflexivity.
  - reflexivity.
  - reflexivity.
  - reflexivity.
Defined.

(** ** Order of the optional groups *)

Lemma foldl_all_optional_step_perm items items' :
  items ≡ₚ items' →
  ∀ acc, foldl all_optional_step acc items = foldl all_optional_step acc items'.
Proof.
  induction 1 as [|item items items' _ IH|item1 item2 items|l1 l2 l3 _ IH1 _ IH2];
    intros acc; simpl.
  - done.
  - apply IH.
  - by rewrite all_optional_step_comm.
  - by rewrite IH1.
Qed.

(** C9.  The set the loop builds does not depend on the order in which the
    groups are met: on any permutation of the items of
    [CONDITIONAL_REQUIREMENTS] it builds the same set. *)
Theorem all_optional_loop_permutation items items' :
  items ≡ₚ items' → all_optional_loop items = all_optional_loop items'.
Proof.
  intros Hperm. unfold all_optional_loop.
  by apply foldl_all_optional_step_perm.
Qed.

Lemma all_optional_loop_permutation_witness :
  reverse (CONDITIONAL_REQUIREMENTS_literal synapse_manifest) ≡ₚ
    CONDITIONAL_REQUIREMENTS_literal synapse_manifest ∧
  all_optional_loop (reverse (CONDITIONAL_REQUIREMENTS_literal synapse_manifest)) =
  all_optional_loop (CONDITIONAL_REQUIREMENTS_literal synapse_manifest).
Proof.
  split.
  - apply reverse_Permutation.
  - apply (all_optional_loop_permutation
             (reverse (CONDITIONAL_REQUIREMENTS_literal synapse_manifest))
             (CONDITIONAL_REQUIREMENTS_literal synapse_manifest)).
    apply reverse_Permutation.
Defined.

(** ** A valid manifest loads *)

(** C10.  When no specifier of the required list or of any group holds a
    double-quote, the validation loop runs to its end without raising, and
    the module body, under any [__name__], finishes with the module's
    globals bound; in particular the import succeeds. *)
Theorem valid_manifest_loads src :
  valid_manifest src →
  (∀ out, validation_loop (scan_order src) out = (inr (), out)) ∧
  (∀ name out, ∃ out', exec_module name src out = (inr (globals_of src), out')) ∧
  import_module src = inr (globals_of src).
Proof.
  intros Hvalid. split_and!.
  - intros out. apply validation_loop_clean.
    by apply valid_manifest_scan_order.
  - intros name out. rewrite (exec_module_valid src name out Hvalid).
    destruct (String.eqb name "__main__"); by eexists.
  - by apply import_module_valid.
Qed.

Lemma valid_manifest_loads_witness :
  valid_manifest synapse_manifest ∧
  (∀ out, validation_loop (scan_order synapse_manifest) out = (inr (), out)) ∧
  (∀ name out, ∃ out',
     exec_module name synapse_manifest out =
       (inr (globals_of synapse_manifest), out')) ∧
  import_module synapse_manifest = inr (globals_of synapse_manifest).
Proof.
  split.
  - split; repeat constructor.
  - apply (valid_manifest_loads synapse_manifest).
    split; repeat constructor.
Defined.

(** Every manifest is either valid or has an offending specifier, so the
    two cases above leave nothing out. *)
Lemma valid_or_offender src :
  valid_manifest src ∨ ∃ dep, declared dep src ∧ str_in dquote dep = true.
Proof.
  rewrite valid_manifest_scan_order.
  destruct (Forall_Exists_dec (λ dep, str_in dquote dep = false)
              (λ dep, str_in dquote dep = true)
              (λ dep, match str_in dquote dep as b
                        return {b = false} + {b = true}
                      with true => right eq_refl | false => left eq_refl end)
              (scan_order src)) as [Hall | Hex].
  - by left.
  - right. apply Exists_exists in Hex as (dep & Hin & Hdep).
    exists dep. by rewrite <- elem_of_scan_order.
Qed.

(** * Further properties of the module *)

(** ** What [list_requirements] holds, exactly *)

Lemma elem_of_installable_declared dep src :
  dep ∈ installable_declared src ↔
  dep ∈ REQUIREMENTS_literal src ∨
  ∃ name deps, (name, deps) ∈ CONDITIONAL_REQUIREMENTS_literal src ∧
               name ≠ "systemd" ∧ dep ∈ deps.
Proof.
  unfold installable_declared. rewrite elem_of_app. apply or_iff_compat_l.
  rewrite elem_of_concat. split.
  - intros (deps & Hdep & Hdeps).
    apply list_elem_of_fmap in Hdeps as ([name deps'] & -> & Hin).
    apply list_elem_of_filter in Hin as [Hname Hin].
    exists name, deps'. by rewrite <- not_excluded_true.
  - intros (name & deps & Hin & Hname & Hdep). exists deps. split; [done |].
    apply (list_elem_of_fmap_2 snd _ (name, deps)).
    apply list_elem_of_filter. by rewrite <- not_excluded_true in Hname.
Qed.

Lemma elem_of_list_requirements_globals_of dep src :
  dep ∈ list_requirements (globals_of src) ↔ dep ∈ installable_declared src.
Proof.
  unfold list_requirements. simpl.
  rewrite elem_of_elements, elem_of_union, elem_of_list_to_set,
    elem_of_all_optional_loop, elem_of_installable_declared.
  apply or_iff_compat_l. by setoid_rewrite not_excluded_true.
Qed.

Lemma length_remove_dups (l : list string) :
  length (remove_dups l) ≤ length l.
Proof.
  induction l as [|x l IH]; simpl; [done |].
  destruct (decide_rel elem_of x l); simpl; lia.
Qed.

(** X1.  On a loaded module, a specifier is in [list_requirements()] exactly
    when it is in [REQUIREMENTS] or in the list of a group whose name is
    not [systemd]: the function lists nothing else. *)
Theorem list_requirements_exact src g dep :
  import_module src = inr g →
  dep ∈ list_requirements g ↔
  dep ∈ REQUIREMENTS_literal src ∨
  ∃ name deps, (name, deps) ∈ CONDITIONAL_REQUIREMENTS_literal src ∧
               name ≠ "systemd" ∧ dep ∈ deps.
Proof.
  intros ->%import_module_inr.
  by rewrite elem_of_list_requirements_globals_of, elem_of_installable_declared.
Qed.

Lemma list_requirements_exact_witness :
  import_module small_manifest = inr (globals_of small_manifest) ∧
  ("gamma" ∈ list_requirements (globals_of small_manifest) ↔
   "gamma" ∈ REQUIREMENTS_literal small_manifest ∨
   ∃ name deps, (name, deps) ∈ CONDITIONAL_REQUIREMENTS_literal small_manifest ∧
                name ≠ "systemd" ∧ "gamma" ∈ deps).
Proof.
  split.
  - vm_compute. reflexivity.
  - apply (list_requirements_exact small_manifest). vm_compute. reflexivity.
Defined.

(** X2.  On a loaded module [list_requirements()] is, up to order, the
    declared installable specifiers with repetitions dropped; so it is never
    longer than what is declared, and when nothing is declared twice it is
    a rearrangement of the declarations. *)
Theorem list_requirements_declared_once src g :
  import_module src = inr g →
  list_requirements g ≡ₚ remove_dups (installable_declared src) ∧
  length (list_requirements g) ≤ length (installable_declared src) ∧
  (NoDup (installable_declared src) →
   list_requirements g ≡ₚ installable_declared src).
Proof.
  intros ->%import_module_inr.
  assert (list_requirements (globals_of src) ≡ₚ
          remove_dups (installable_declared src)) as Hperm.
  { apply NoDup_Permutation.
    - unfold list_requirements. apply NoDup_elements.
    - apply NoDup_remove_dups.
    - intros dep.
      by rewrite elem_of_remove_dups, elem_of_list_requirements_globals_of. }
  split_and!; [done | |].
  - rewrite Hperm. apply length_remove_dups.
  - intros Hnd. rewrite Hperm.
    apply NoDup_Permutation; [apply NoDup_remove_dups | done |].
    intros dep. apply elem_of_remove_dups.
Qed.

Lemma list_requirements_declared_once_witness :
  import_module synapse_manifest = inr (globals_of synapse_manifest) ∧
  list_requirements (globals_of synapse_manifest) ≡ₚ
    remove_dups (installable_declared synapse_manifest) ∧
  length (list_requirements (globals_of synapse_manifest)) ≤
    length (installable_declared synapse_manifest) ∧
  (NoDup (installable_declared synapse_manifest) →
   list_requirements (globals_of synapse_manifest) ≡ₚ
     installable_declared synapse_manifest).
Proof.
  split.
  - vm_compute. reflexivity.
  - apply (list_requirements_declared_once synapse_manifest).
    vm_compute. reflexivity.
Defined.

(** The module text declares 45 installable specifiers, none twice, and
    [list_requirements()] has 45 elements; on [small_manifest] six
    declarations collapse to three elements. *)
Example list_requirements_lengths :
  length (list_requirements (globals_of synapse_manifest)) = 45 ∧
  length (installable_declared synapse_manifest) = 45 ∧
  length (list_requirements (globals_of small_manifest)) = 3 ∧
  length (installable_declared small_manifest) = 6.
Proof. vm_compute. done. Qed.

(** ** The loop over the groups, piece by piece *)

(** X3.  The entry of the [systemd] group has no part in
    [ALL_OPTIONAL_REQUIREMENTS]: the loop builds the same set with the entry
    removed, and with any other list under that name. *)
Theorem systemd_entry_ignored items1 items2 deps deps' :
  all_optional_loop (items1 ++ ("systemd", deps) :: items2) =
    all_optional_loop (items1 ++ items2) ∧
  all_optional_loop (items1 ++ ("systemd", deps) :: items2) =
    all_optional_loop (items1 ++ ("systemd", deps') :: items2).
Proof.
  unfold all_optional_loop. by rewrite !foldl_app.
Qed.

(** X4.  Running the loop over two runs of items, one after the other,
    gives the union of what it gives on each; so every further group can
    only add to [ALL_OPTIONAL_REQUIREMENTS]. *)
Theorem all_optional_loop_app items1 items2 :
  all_optional_loop (items1 ++ items2) =
    all_optional_loop items1 ∪ all_optional_loop items2 ∧
  all_optional_loop items1 ⊆ all_optional_loop (items1 ++ items2).
Proof.
  assert (all_optional_loop (items1 ++ items2) =
          all_optional_loop items1 ∪ all_optional_loop items2) as Heq.
  { apply set_eq. intros x.
    rewrite elem_of_union, !elem_of_all_optional_loop.
    setoid_rewrite elem_of_app. naive_solver. }
  split; [done |]. rewrite Heq. apply union_subseteq_l.
Qed.

(** ** What the module body writes *)

Lemma validation_loop_out deps out : (validation_loop deps out).2 = out.
Proof.
  induction deps as [|dep deps IH]; simpl; [done |].
  by destruct (str_in dquote dep).
Qed.

Lemma validation_loop_inr deps out u out' :
  validation_loop deps out = (inr u, out') →
  Forall (λ dep, str_in dquote dep = false) deps.
Proof.
  induction deps as [|dep deps IH]; simpl; [by constructor |].
  destruct (str_in dquote dep) eqn:Hdep; [done |].
  intros Hrest. constructor; [done | by apply IH].
Qed.

Lemma import_module_inr_valid src g :
  import_module src = inr g → valid_manifest src.
Proof.
  unfold import_module, exec_module, bind. fold (scan_order src).
  destruct (validation_loop (scan_order src) "") as [[e|u] out'] eqn:Hloop;
    [done |].
  intros _. apply valid_manifest_scan_order.
  by eapply validation_loop_inr.
Qed.

(** X5.  Under any [__name__] other than [__main__], which is the case of
    an import, the module body writes nothing to standard output, whether
    it finishes or raises. *)
Theorem import_writes_nothing name src out :
  name ≠ "__main__" → (exec_module name src out).2 = out.
Proof.
  intros Hname. unfold exec_module, bind.
  pose proof (validation_loop_out
    (itertools_chain (REQUIREMENTS_literal src ::
                      dict_values (CONDITIONAL_REQUIREMENTS_literal src))) out)
    as Hout.
  destruct (validation_loop _ out) as [[e|u] out']; simpl in Hout; subst out'.
  - done.
  - destruct (String.eqb_spec name "__main__"); done.
Qed.

Lemma import_writes_nothing_witness :
  "synapse.python_dependencies" ≠ "__main__" ∧
  (exec_module "synapse.python_dependencies" synapse_manifest "earlier").2 =
    "earlier" ∧
  (exec_module "synapse.python_dependencies" bad_systemd_manifest "earlier").2 =
    "earlier".
Proof.
  split_and!.
  - compute_done.
  - apply (import_writes_nothing _ synapse_manifest). compute_done.
  - apply (import_writes_nothing _ bad_systemd_manifest). compute_done.
Defined.

(** ** What a successful import guarantees *)

Lemma dict_getitem_inr {V} (d : dict V) k v :
  dict_getitem d k = inr v → (k, v) ∈ d.
Proof.
  induction d as [|[k' v'] d IH]; simpl; [done |].
  destruct (String.eqb_spec k k') as [-> | Hne].
  - intros [= ->]. by left.
  - intros Hrest. right. by apply IH.
Qed.

(** X6.  Once the import has succeeded, no specifier that can be read from
    the module holds a double-quote: none of [REQUIREMENTS], none of the
    list of any group a subscript returns, [systemd] included, none of
    [ALL_OPTIONAL_REQUIREMENTS] and none of [list_requirements()]. *)
Theorem loaded_module_has_no_double_quote src g :
  import_module src = inr g →
  (∀ dep, dep ∈ REQUIREMENTS g → str_in dquote dep = false) ∧
  (∀ name deps g',
     group_lookup name g = (inr deps, g') →
     Forall (λ dep, str_in dquote dep = false) deps) ∧
  (∀ dep, dep ∈ ALL_OPTIONAL_REQUIREMENTS g → str_in dquote dep = false) ∧
  (∀ dep, dep ∈ list_requirements g → str_in dquote dep = false).
Proof.
  intros Himport.
  pose proof (import_module_inr_valid _ _ Himport) as [Hreq Hcond].
  apply import_module_inr in Himport as ->. simpl.
  rewrite Forall_forall in Hreq. rewrite Forall_forall in Hcond.
  assert (∀ dep, dep ∈ all_optional_loop
            (dict_items (CONDITIONAL_REQUIREMENTS_literal src)) →
          str_in dquote dep = false) as Hall.
  { intros dep (name & deps & Hin & _ & Hdep)%elem_of_all_optional_loop.
    specialize (Hcond _ Hin). simpl in Hcond.
    rewrite Forall_forall in Hcond. by apply Hcond. }
  split_and!.
  - done.
  - unfold group_lookup. simpl. intros name deps g' [= Hget _].
    apply dict_getitem_inr in Hget. by apply (Hcond (name, deps)).
  - done.
  - unfold list_requirements. simpl. intros dep.
    rewrite elem_of_elements, elem_of_union, elem_of_list_to_set.
    intros [Hin | Hin]; [by apply Hreq | by apply Hall].
Qed.

Lemma loaded_module_has_no_double_quote_witness :
  import_module synapse_manifest = inr (globals_of synapse_manifest) ∧
  (∀ dep, dep ∈ REQUIREMENTS (globals_of synapse_manifest) →
          str_in dquote dep = false) ∧
  (∀ name deps g',
     group_lookup name (globals_of synapse_manifest) = (inr deps, g') →
     Forall (λ dep, str_in dquote dep = false) deps) ∧
  (∀ dep, dep ∈ ALL_OPTIONAL_REQUIREMENTS (globals_of synapse_manifest) →
          str_in dquote dep = false) ∧
  (∀ dep, dep ∈ list_requirements (globals_of synapse_manifest) →
          str_in dquote dep = false).
Proof.
  split.
  - vm_compute. reflexivity.
  - apply (loaded_module_has_no_double_quote synapse_manifest).
    vm_compute. reflexivity.
Defined.

(** X7.  The only way the import fails is the exception of the validation
    loop: whatever exception the import yields, its message is the one
    built from a declared specifier that holds a double-quote. *)
Theorem import_failure_names_offender src e :
  import_module src = inl e →
  ∃ dep, declared dep src ∧ str_in dquote dep = true ∧
         e = Exception (double_quote_message dep).
Proof.
  intros Himport.
  destruct (valid_or_offender src) as [Hvalid | Hbad].
  - rewrite (import_module_valid _ Hvalid) in Himport. done.
  - destruct (first_offender (scan_order src))
      as (pre & dep & post & Hscan & Hpre & Hdep).
    { destruct Hbad as (dep0 & Hdecl & Hdep0).
      exists dep0. by rewrite elem_of_scan_order. }
    exists dep. split_and!; [|done|].
    + apply elem_of_scan_order. rewrite Hscan. set_solver.
    + unfold import_module in Himport.
      rewrite (exec_module_offender src _ _ pre dep post Hscan Hpre Hdep)
        in Himport.
      simpl in Himport. congruence.
Qed.

Lemma import_failure_names_offender_witness :
  import_module bad_systemd_manifest =
    inl (Exception (double_quote_message bad_name)) ∧
  ∃ dep, declared dep bad_systemd_manifest ∧ str_in dquote dep = true ∧
         Exception (double_quote_message bad_name) =
         Exception (double_quote_message dep).
Proof.
  split.
  - reflexivity.
  - apply (import_failure_names_offender bad_systemd_manifest). reflexivity.
Defined.

(** ** The order of the declarations *)

Lemma valid_manifest_perm src src' :
  REQUIREMENTS_literal src ≡ₚ REQUIREMENTS_literal src' →
  CONDITIONAL_REQUIREMENTS_literal src ≡ₚ CONDITIONAL_REQUIREMENTS_literal src' →
  valid_manifest src → valid_manifest src'.
Proof.
  intros Hreq Hcond [Hr Hc]. split.
  - by rewrite <- Hreq.
  - by rewrite <- Hcond.
Qed.

(** X9.  Two manifests that declare the same required specifiers and the
    same groups, each in any order, load into modules whose
    [list_requirements()] hold the same specifiers. *)
Theorem list_requirements_order_insensitive src src' g g' :
  REQUIREMENTS_literal src ≡ₚ REQUIREMENTS_literal src' →
  CONDITIONAL_REQUIREMENTS_literal src ≡ₚ CONDITIONAL_REQUIREMENTS_literal src' →
  import_module src = inr g →
  import_module src' = inr g' →
  list_requirements g ≡ₚ list_requirements g'.
Proof.
  intros Hreq Hcond ->%import_module_inr ->%import_module_inr.
  apply NoDup_Permutation.
  - unfold list_requirements. apply NoDup_elements.
  - unfold list_requirements. apply NoDup_elements.
  - intros dep. rewrite !elem_of_list_requirements_globals_of.
    rewrite !elem_of_installable_declared.
    rewrite Hreq. by setoid_rewrite Hcond.
Qed.

Lemma list_requirements_order_insensitive_witness :
  list_requirements (globals_of small_manifest) ≡ₚ
  list_requirements (globals_of (reordered small_manifest)).
Proof.
  apply (list_requirements_order_insensitive
           small_manifest (reordered small_manifest)).
  - symmetry. apply reverse_Permutation.
  - symmetry. apply reverse_Permutation.
  - vm_compute. reflexivity.
  - vm_compute. reflexivity.
Defined.

(** X10.  Whether the import succeeds does not depend on the order of the
    declarations either: of two manifests that declare the same required
    specifiers and the same groups in any order, both load or neither. *)
Theorem import_outcome_order_insensitive src src' :
  REQUIREMENTS_literal src ≡ₚ REQUIREMENTS_literal src' →
  CONDITIONAL_REQUIREMENTS_literal src ≡ₚ CONDITIONAL_REQUIREMENTS_literal src' →
  (∃ g, import_module src = inr g) ↔ (∃ g', import_module src' = inr g').
Proof.
  intros Hreq Hcond. split; intros [g0 Himport%import_module_inr_valid].
  - exists (globals_of src'). apply import_module_valid.
    by apply (valid_manifest_perm src src').
  - exists (globals_of src). apply import_module_valid.
    by apply (valid_manifest_perm src' src).
Qed.

Lemma import_outcome_order_insensitive_witness :
  (∃ g, import_module bad_systemd_manifest = inr g) ↔
  (∃ g', import_module (reordered bad_systemd_manifest) = inr g').
Proof.
  apply (import_outcome_order_insensitive
           bad_systemd_manifest (reordered bad_systemd_manifest)).
  - symmetry. apply reverse_Permutation.
  - symmetry. apply reverse_Permutation.
Defined.

(** Which specifier the exception names does depend on the order: with the
    groups of [bad_systemd_manifest] written backwards, the one of group
    [y] is met first. *)
Example reordered_reports_another :
  import_module bad_systemd_manifest =
    inl (Exception (double_quote_message bad_name)) ∧
  import_module (reordered bad_systemd_manifest) =
    inl (Exception (double_quote_message ("delta" +:+ dquote))).
Proof. split; reflexivity. Qed.

(** ** Reading the printed lines back *)

Section printed_lines.
Implicit Types a b r s : string.
Implicit Types l : list string.

Lemma no_newline_cons c s :
  str_in newline (String c s) = false →
  c ≠ Ascii.ascii_of_nat 10 ∧ str_in newline s = false.
Proof.
  intros Hno. split.
  - intros ->.
    assert (str_in newline (String (Ascii.ascii_of_nat 10) s) = true) as Hyes
      by (apply str_in_true; by exists "", s).
    congruence.
  - destruct (str_in newline s) eqn:Hs; [|done].
    apply str_in_true in Hs as (u & v & ->).
    assert (str_in newline (String c (u +:+ newline +:+ v)) = true) as Hyes
      by (apply str_in_true; by exists (String c u), v).
    congruence.
Qed.

Lemma newline_append r : newline +:+ r = String (Ascii.ascii_of_nat 10) r.
Proof. reflexivity. Qed.

(** Two lines without a line feed inside that start the same text are the
    same line, and what follows them is the same. *)
Lemma line_split_inj a : ∀ b r1 r2,
  str_in newline a = false → str_in newline b = false →
  a +:+ newline +:+ r1 = b +:+ newline +:+ r2 → a = b ∧ r1 = r2.
Proof.
  induction a as [|c a IH]; intros [|d b] r1 r2 Ha Hb Heq;
    rewrite ?append_nil_l, ?append_cons, ?newline_append in Heq.
  - by injection Heq as ->.
  - apply no_newline_cons in Hb as [Hd _].
    injection Heq as Hc _. congruence.
  - apply no_newline_cons in Ha as [Hc _].
    injection Heq as Hd _. congruence.
  - apply no_newline_cons in Ha as [_ Ha].
    apply no_newline_cons in Hb as [_ Hb].
    injection Heq as -> Heq.
    destruct (IH b r1 r2 Ha Hb Heq) as [-> ->]. done.
Qed.

Lemma written_cons s l : written (s :: l) = s +:+ written l.
Proof. reflexivity. Qed.

Lemma written_lines_inj l1 : ∀ l2,
  Forall (λ req, str_in newline req = false) l1 →
  Forall (λ req, str_in newline req = false) l2 →
  written ((λ req, req +:+ newline) <$> l1) =
  written ((λ req, req +:+ newline) <$> l2) →
  l1 = l2.
Proof.
  induction l1 as [|a l1 IH]; intros [|b l2] H1 H2 Heq.
  - done.
  - apply (f_equal String.length) in Heq.
    rewrite fmap_cons, written_cons, !length_append in Heq.
    simpl in Heq. lia.
  - apply (f_equal String.length) in Heq.
    rewrite fmap_cons, written_cons, !length_append in Heq.
    simpl in Heq. lia.
  - apply Forall_cons in H1 as [Ha H1]. apply Forall_cons in H2 as [Hb H2].
    rewrite !fmap_cons, !written_cons, !append_assoc in Heq.
    apply line_split_inj in Heq as [-> Heq]; [|done..].
    f_equal. by apply IH.
Qed.

End printed_lines.

(** X11.  When no specifier holds a line feed, the text the [__main__]
    block writes determines the list it was given, order included: two
    lists of such specifiers that are written as the same text are the same
    list. *)
Theorem printed_lines_determine_list l1 l2 out :
  Forall (λ req, str_in newline req = false) l1 →
  Forall (λ req, str_in newline req = false) l2 →
  stdout_writelines ((λ req, req +:+ newline) <$> l1) out =
  stdout_writelines ((λ req, req +:+ newline) <$> l2) out →
  l1 = l2.
Proof.
  intros H1 H2. rewrite !stdout_writelines_spec. intros [= Heq].
  apply (inj (String.append out)) in Heq.
  by apply written_lines_inj.
Qed.

Lemma printed_lines_determine_list_witness :
  REQUIREMENTS_literal synapse_manifest =
  take 31 (installable_declared synapse_manifest).
Proof.
  apply (printed_lines_determine_list _ _ "").
  - repeat constructor.
  - vm_compute. repeat constructor.
  - vm_compute. reflexivity.
Defined.

(** The validation loop lets a line feed through, and then the text no
    longer tells the specifiers apart: one specifier with a line feed
    inside is written as two lines. *)
Example line_feed_is_not_rejected :
  let two_lines := "a" +:+ newline +:+ "b" in
  validation_loop [two_lines] "" = (inr (), "") ∧
  stdout_writelines ((λ req, req +:+ newline) <$> [two_lines]) "" =
  stdout_writelines ((λ req, req +:+ newline) <$> ["a"; "b"]) "".
Proof. split; reflexivity. Qed.
